(** * MT19937 state recovery: a shallow embedding of [main.py]

    The development follows the predictor core of the solver: the
    module-level untempering helpers ([undo_right_shift_xor],
    [undo_left_shift_xor_and], [untemper]) and the class [MT19937]
    ([__init__], [seed_from_state], [twist], [temper], [next_uint32]).
    Of the glue around it, the loop of [collect_outputs] and the
    reconstruction step of [main] are followed too, with the answers of
    the remote service given as a list of rounds.

    Python integers are unbounded, so words are modelled as [Z] and every
    mask the source applies is written out.  The methods of the class mutate
    one instance and may raise; they are modelled in a state-and-exception
    monad over the instance record. *)

From Stdlib Require Import ZArith Lia Bool.
From stdpp Require Import base list.
From coqutil Require Import Z.bitblast.

Local Open Scope Z_scope.

(** ** The fragment of the Python runtime that the source relies on *)

(** [range(start, stop, step)] for a positive step; the source only builds
    ranges with steps 1, 7, 11, 15 and 18. *)
Definition py_range (start stop step : Z) : list Z :=
  if step <=? 0 then []
  else map (fun k => start + Z.of_nat k * step)
           (seq 0 (Z.to_nat ((stop - start + step - 1) / step))).

(** Index normalisation of [list.__getitem__] and [list.__setitem__]: a
    negative index counts from the end, anything else out of range is an
    [IndexError] (here [None]). *)
Definition list_index (len i : Z) : option nat :=
  if (0 <=? i) && (i <? len) then Some (Z.to_nat i)
  else if (- len <=? i) && (i <? 0) then Some (Z.to_nat (len + i))
  else None.

Definition py_getitem (l : list Z) (i : Z) : option Z :=
  match list_index (Z.of_nat (length l)) i with
  | Some n => l !! n
  | None => None
  end.

Definition py_setitem (l : list Z) (i v : Z) : option (list Z) :=
  match list_index (Z.of_nat (length l)) i with
  | Some n => Some (<[n := v]> l)
  | None => None
  end.

Inductive exn := ValueError | IndexError.

Inductive result (A : Type) :=
| Ok (a : A)
| Raise (e : exn).
Arguments Ok {A} a.
Arguments Raise {A} e.

(** ** Module-level tempering parameters *)

Module Tempering.
Definition U : Z := 11.
Definition D : Z := 0xFFFFFFFF.
Definition S : Z := 7.
Definition B : Z := 0x9D2C5680.
Definition T : Z := 15.
Definition C : Z := 0xEFC60000.
Definition L : Z := 18.
End Tempering.

(** The two undo loops run over [range(0, 32, shift)]; the source calls
    them with the shifts 18, 15, 7 and 11 only. *)
Definition undo_right_shift_xor (y shift : Z) : Z :=
  let x :=
    fold_left
      (fun x i =>
         let part := Z.shiftr y i in
         let mask :=
           if i + shift <=? 32 then Z.shiftl 1 shift - 1
           else Z.shiftl 1 (32 - i) - 1 in
         let x_part := Z.land (Z.lxor part (Z.shiftr x shift)) mask in
         Z.lor x (Z.shiftl x_part i))
      (py_range 0 32 shift) 0 in
  Z.land x 0xFFFFFFFF.

Definition undo_left_shift_xor_and (y shift mask : Z) : Z :=
  let x :=
    fold_left
      (fun x i =>
         let part_mask :=
           if i + shift <=? 32 then Z.shiftl 1 shift - 1
           else Z.shiftl 1 (32 - i) - 1 in
         let part := Z.land (Z.shiftr y i) part_mask in
         let prev := Z.land (Z.shiftl x shift) mask in
         let x_part := Z.lxor part (Z.land (Z.shiftr prev i) part_mask) in
         Z.lor x (Z.shiftl x_part i))
      (py_range 0 32 shift) 0 in
  Z.land x 0xFFFFFFFF.

Definition untemper (y : Z) : Z :=
  let y := Z.land y 0xFFFFFFFF in
  let y := undo_right_shift_xor y Tempering.L in
  let y := undo_left_shift_xor_and y Tempering.T Tempering.C in
  let y := undo_left_shift_xor_and y Tempering.S Tempering.B in
  let y := undo_right_shift_xor y Tempering.U in
  Z.land y 0xFFFFFFFF.

(** ** The class [MT19937] *)

Module MT19937.

Definition N : Z := 624.
Definition M : Z := 397.
Definition MATRIX_A : Z := 0x9908B0DF.
Definition UPPER_MASK : Z := 0x80000000.
Definition LOWER_MASK : Z := 0x7FFFFFFF.

(** The attributes of an instance. *)
Record t := mk { mt : list Z; index : Z }.

(** A method body: it runs on the instance, returns a value or raises, and
    leaves the instance as mutated so far. *)
Definition action (A : Type) : Type := t -> result A * t.

#[global] Instance action_ret : MRet action := fun A a s => (Ok a, s).
#[global] Instance action_bind : MBind action := fun A B f m s =>
  match m s with
  | (Ok a, s') => f a s'
  | (Raise e, s') => (Raise e, s')
  end.

Definition raise {A : Type} (e : exn) : action A := fun s => (Raise e, s).

Definition get_index : action Z := fun s => (Ok (index s), s).
Definition set_index (i : Z) : action unit := fun s => (Ok tt, mk (mt s) i).
Definition set_mt (l : list Z) : action unit := fun s => (Ok tt, mk l (index s)).

(** [self.mt[i]] as an expression and as an assignment target. *)
Definition getitem (i : Z) : action Z := fun s =>
  match py_getitem (mt s) i with
  | Some v => (Ok v, s)
  | None => (Raise IndexError, s)
  end.

Definition setitem (i v : Z) : action unit := fun s =>
  match py_setitem (mt s) i v with
  | Some l => (Ok tt, mk l (index s))
  | None => (Raise IndexError, s)
  end.

(** [for x in l: body x] *)
Fixpoint for_ {A : Type} (l : list A) (body : A -> action unit) : action unit :=
  match l with
  | [] => mret tt
  | x :: l' => body x ;; for_ l' body
  end.

(** The instance [MT19937()] returns. *)
Definition __init__ : t := mk (replicate (Z.to_nat N) 0) N.

Definition seed_from_state (state_untempered : list Z) : action unit :=
  if negb (Z.of_nat (length state_untempered) =? N)
  then raise ValueError
  else
    set_mt (map (fun x => Z.land x 0xFFFFFFFF) state_untempered) ;;
    set_index N.

(** One iteration of the loop of [twist]. *)
Definition twist_body (i : Z) : action unit :=
  a ← getitem i;
  b ← getitem ((i + 1) `mod` N);
  let y := Z.lor (Z.land a UPPER_MASK) (Z.land b LOWER_MASK) in
  c ← getitem ((i + M) `mod` N);
  setitem i (Z.lxor c (Z.shiftr y 1)) ;;
  (if negb (Z.land y 1 =? 0)
   then v ← getitem i; setitem i (Z.lxor v MATRIX_A)
   else mret tt) ;;
  v ← getitem i;
  setitem i (Z.land v 0xFFFFFFFF).

Definition twist : action unit :=
  for_ (py_range 0 N 1) twist_body ;;
  set_index 0.

Definition temper (y : Z) : Z :=
  let y := Z.lxor y (Z.shiftr y Tempering.U) in
  let y := Z.lxor y (Z.land (Z.shiftl y Tempering.S) Tempering.B) in
  let y := Z.lxor y (Z.land (Z.shiftl y Tempering.T) Tempering.C) in
  let y := Z.lxor y (Z.shiftr y Tempering.L) in
  Z.land y 0xFFFFFFFF.

Definition next_uint32 : action Z :=
  idx ← get_index;
  (if N <=? idx then twist else mret tt) ;;
  idx ← get_index;
  y ← getitem idx;
  idx ← get_index;
  set_index (idx + 1) ;;
  mret (temper y).

End MT19937.

Import MT19937.

(** ** What the callers do with the class *)

(** [n] successive calls of [next_uint32], results in call order
    (as [final_attack] draws its two predictions). *)
Fixpoint draw (n : nat) : action (list Z) :=
  match n with
  | O => mret []
  | Datatypes.S n' => v ← next_uint32; l ← draw n'; mret (v :: l)
  end.

(** The reconstruction of [main]: untemper every collected output, build a
    new instance and seed it. *)
Definition reconstruct (outputs : list Z) : result unit * t :=
  seed_from_state (map untemper outputs) __init__.

(** A generator whose recurrence array is [S] and whose cursor is at the
    end of the array, so that its next output starts with a twist. *)
Definition generator (S : list Z) : t := mk S N.

(** ** Words *)

Definition word (x : Z) : Prop := 0 <= x < 2 ^ 32.

(** ** The twist, one iteration at a time *)

(** The word one iteration stores at [mt[i]], from the three words it reads:
    [a] at [i], [b] at [(i + 1) % N] and [c] at [(i + M) % N]. *)
Definition twist_word (a b c : Z) : Z :=
  let y := Z.lor (Z.land a UPPER_MASK) (Z.land b LOWER_MASK) in
  let v := Z.lxor c (Z.shiftr y 1) in
  Z.land (if Z.land y 1 =? 0 then v else Z.lxor v MATRIX_A) 0xFFFFFFFF.

(** The effect of one iteration on the array: the three reads, then a single
    visible store. *)
Definition twist_body_list (l : list Z) (i : Z) : option (list Z) :=
  match list_index (Z.of_nat (length l)) i,
        py_getitem l ((i + 1) `mod` N),
        py_getitem l ((i + M) `mod` N) with
  | Some n, Some b, Some c => Some (<[n := twist_word (l !!! n) b c]> l)
  | _, _, _ => None
  end.

(** The loop over a list of indices. *)
Fixpoint twist_loop_list (idxs : list Z) (l : list Z) : option (list Z) :=
  match idxs with
  | [] => Some l
  | i :: idxs' =>
      match twist_body_list l i with
      | Some l' => twist_loop_list idxs' l'
      | None => None
      end
  end.

(** ** The twist on an array of 624 words *)

(** With the array at its full length no read is out of range, and an
    iteration is a plain in-place update. *)
Definition twist_step (l : list Z) (i : nat) : list Z :=
  <[i := twist_word (l !!! i)
                    (l !!! ((i + 1) `mod` 624)%nat)
                    (l !!! ((i + 397) `mod` 624)%nat)]> l.

(** The array after the first [k] iterations. *)
Definition twist_prefix_list (k : nat) (l : list Z) : list Z :=
  fold_left twist_step (seq 0 k) l.

Definition twist_list (l : list Z) : list Z := twist_prefix_list 624 l.

(** The loop of [twist] stopped before iteration [k]. *)
Definition twist_prefix (k : Z) : action unit :=
  for_ (py_range 0 k 1) twist_body.

Arguments twist_prefix_list : simpl never.
Arguments twist_list : simpl never.

(** ** Producing outputs *)

(** The shape every reachable instance has: a full array and a cursor that
    is at most at its end. *)
Definition well_formed (s : t) : Prop :=
  length (mt s) = 624%nat /\ 0 <= index s <= N.

(** The instance on which [next_uint32] reads: twisted first when the cursor
    is at the end. *)
Definition refill (s : t) : t :=
  if N <=? index s then mk (twist_list (mt s)) 0 else s.

(** ** Tempering *)

(** The tempering steps as the specification words them, every intermediate
    result reduced to 32 bits. *)
Module TemperSpec.
Definition wrap32 (x : Z) : Z := x `mod` 2 ^ 32.

(** [x ^= x >> k], no mask. *)
Definition right_shift_xor (k x : Z) : Z :=
  wrap32 (Z.lxor x (Z.shiftr x k)).

(** [x ^= (x << k) & mask]. *)
Definition left_shift_xor_and (k mask x : Z) : Z :=
  wrap32 (Z.lxor x (Z.land (wrap32 (Z.shiftl x k)) mask)).

Definition temper_steps (x : Z) : Z :=
  let x := right_shift_xor 11 x in
  let x := left_shift_xor_and 7 0x9D2C5680 x in
  let x := left_shift_xor_and 15 0xEFC60000 x in
  right_shift_xor 18 x.
End TemperSpec.

(** ** The state invariant *)

(** Every stored word fits 32 bits and the cursor is within [0, 624]. *)
Definition state_ok (s : t) : Prop :=
  Forall word (mt s) /\ 0 <= index s <= N.

(** ** The twist computed from a snapshot *)

(** The twist as the specification words it: every new entry computed from
    the array as it was before the pass. *)
Definition twist_snapshot (l : list Z) : list Z :=
  map (fun i => twist_word (l !!! i)
                           (l !!! ((i + 1) `mod` 624)%nat)
                           (l !!! ((i + 397) `mod` 624)%nat))
      (seq 0 624).

(** ** Reconstruction from observed outputs *)

(** The 624 outputs an observer collects from a generator with array [S],
    and the generator once it has produced them. *)
Definition observe (S : list Z) : result (list Z) * t :=
  draw 624 (generator S).

(** The next [k] outputs of the instance reconstructed from the observed
    outputs. *)
Definition predicted (S : list Z) (k : nat) : result (list Z) :=
  match observe S with
  | (Ok outputs, _) =>
      match reconstruct outputs with
      | (Ok _, predictor) => fst (draw k predictor)
      | (Raise e, _) => Raise e
      end
  | (Raise e, _) => Raise e
  end.

(** The next [k] outputs of the observed generator itself. *)
Definition actual (S : list Z) (k : nat) : result (list Z) :=
  match observe S with
  | (Ok _, original) => fst (draw k original)
  | (Raise e, _) => Raise e
  end.

(** ** Concrete inputs *)

(** A sequence of 625 words, one more than the array holds. *)
Definition words_625 : list Z := map Z.of_nat (seq 0 625).

(** The all-zero array with a one at index 1. *)
Definition array_one : list Z := <[1%nat := 1]> (replicate 624 0).

(** ** The array after one twist *)

(** The recurrence array a generator with array [S] holds once it has
    twisted. *)
Definition twisted (S : list Z) : list Z := mt (snd (twist (generator S))).

(** ** Collecting the outputs *)

(** [l[:stop]] *)
Definition py_slice_to (l : list Z) (stop : Z) : list Z :=
  if 0 <=? stop then take (Z.to_nat stop) l
  else take (Z.to_nat (Z.of_nat (length l) + stop)) l.

(** What one call of [one_fail_round] hands to [collect_outputs]: the parsed
    [lucky_val] and [exit_val], each [None] when its pattern was not found
    (the third component, the raw text, is not used by the caller). *)
Definition round : Type := option Z * option Z.

(** The loop of [collect_outputs], run against the rounds the service will
    answer with.  The loop ends when enough outputs are there; [None] stands
    for a loop that has used up all the given rounds and is still asking.
    The rounds not used are returned with the outputs. *)
Fixpoint collect_loop (target_count : Z) (rounds : list round) (outputs : list Z)
  : option (list Z * list round) :=
  if Z.of_nat (length outputs) <? target_count then
    match rounds with
    | [] => None
    | (Some lucky_val, Some exit_val) :: rounds' =>
        let outputs := outputs ++ [Z.land lucky_val 0xFFFFFFFF] in
        let outputs :=
          if Z.of_nat (length outputs) <? target_count
          then outputs ++ [Z.land exit_val 0xFFFFFFFF]
          else outputs in
        collect_loop target_count rounds' outputs
    | _ :: rounds' => collect_loop target_count rounds' outputs
    end
  else Some (outputs, rounds).

Definition collect_outputs (target_count : Z) (rounds : list round)
  : option (list Z * list round) :=
  match collect_loop target_count rounds [] with
  | Some (outputs, rest) => Some (py_slice_to outputs target_count, rest)
  | None => None
  end.

(** The values a round contributes: lucky first, then exit, or nothing when
    one of the two was not parsed. *)
Definition round_values (r : round) : list Z :=
  match r with
  | (Some lucky_val, Some exit_val) =>
      [Z.land lucky_val 0xFFFFFFFF; Z.land exit_val 0xFFFFFFFF]
  | _ => []
  end.

(** All the values a list of rounds carries, in order. *)
Definition stream (rounds : list round) : list Z :=
  concat (map round_values rounds).

(** 312 rounds that all parse. *)
Definition rounds_312 : list round := replicate 312 (Some 1, Some 2).

(** ** Proof automation *)

(** Equalities of bitwise expressions, bit by bit. *)
Ltac bitblast_deep :=
  eapply Z.bits_inj'; intros ?i ?Hi; repeat Z.rewrite_bitwise; Z.bitblast_core.

(** * Properties *)

(** ** Words *)

Lemma mask_word (x : Z) : word (Z.land x 0xFFFFFFFF).
Proof.
  unfold word. change 0xFFFFFFFF with (Z.ones 32).
  rewrite Z.land_ones by lia. apply Z.mod_pos_bound. lia.
Qed.

Lemma word_mask (x : Z) : word x -> Z.land x 0xFFFFFFFF = x.
Proof.
  unfold word. intros Hx. change 0xFFFFFFFF with (Z.ones 32).
  rewrite Z.land_ones by lia. apply Z.mod_small. exact Hx.
Qed.

Lemma word_iff_mask (x : Z) : word x <-> Z.land x 0xFFFFFFFF = x.
Proof.
  split; [apply word_mask |].
  intros <-. apply mask_word.
Qed.

Lemma land_lxor_distr_l (a b c : Z) :
  Z.land (Z.lxor a b) c = Z.lxor (Z.land a c) (Z.land b c).
Proof.
  apply Z.bits_inj'. intros n _.
  rewrite Z.land_spec, !Z.lxor_spec, !Z.land_spec.
  destruct (Z.testbit a n), (Z.testbit b n), (Z.testbit c n); reflexivity.
Qed.

Lemma word_lxor (x y : Z) : word x -> word y -> word (Z.lxor x y).
Proof.
  rewrite !word_iff_mask. intros Hx Hy.
  rewrite land_lxor_distr_l. congruence.
Qed.

Lemma word_land_r (x y : Z) : word y -> word (Z.land x y).
Proof.
  rewrite !word_iff_mask. intros Hy.
  rewrite <- Z.land_assoc. congruence.
Qed.

Lemma word_shiftr (x k : Z) : 0 <= k -> word x -> word (Z.shiftr x k).
Proof.
  unfold word. intros Hk [Hx0 Hx]. rewrite Z.shiftr_div_pow2 by lia.
  assert (0 < 2 ^ k) by (apply Z.pow_pos_nonneg; lia).
  split.
  - apply Z.div_pos; lia.
  - apply Z.le_lt_trans with x; [| exact Hx].
    apply Z.div_le_upper_bound; nia.
Qed.

(** ** Indexing *)

Lemma list_index_lt (len i : Z) (n : nat) :
  list_index len i = Some n -> Z.of_nat n < len.
Proof.
  unfold list_index.
  destruct (0 <=? i) eqn:H0; destruct (i <? len) eqn:H1; simpl;
    [intros [= <-]; lia | | |];
    (destruct (- len <=? i) eqn:H2; destruct (i <? 0) eqn:H3; simpl;
     [intros [= <-]; lia | discriminate ..]).
Qed.

Lemma list_index_in_range (len i : Z) :
  0 <= i < len -> list_index len i = Some (Z.to_nat i).
Proof.
  intros [H0 H1]. unfold list_index.
  apply Z.leb_le in H0. apply Z.ltb_lt in H1. now rewrite H0, H1.
Qed.

Lemma py_getitem_in_range (l : list Z) (i : Z) :
  0 <= i < Z.of_nat (length l) -> py_getitem l i = Some (l !!! Z.to_nat i).
Proof.
  intros Hi. unfold py_getitem. rewrite list_index_in_range by exact Hi.
  apply list_lookup_lookup_total_lt. lia.
Qed.

Lemma py_getitem_word (l : list Z) (i v : Z) :
  Forall word l -> py_getitem l i = Some v -> word v.
Proof.
  unfold py_getitem. intros Hl.
  destruct (list_index _ i) as [n |]; [| discriminate].
  intros Hn. rewrite Forall_lookup in Hl. eapply Hl, Hn.
Qed.

Lemma py_getitem_insert (l : list Z) (i v : Z) (n : nat) :
  list_index (Z.of_nat (length l)) i = Some n ->
  py_getitem (<[n := v]> l) i = Some v.
Proof.
  intros Hn. unfold py_getitem. rewrite length_insert, Hn.
  apply list_lookup_insert_eq. apply list_index_lt in Hn. lia.
Qed.

Lemma py_setitem_insert (l : list Z) (i v w : Z) (n : nat) :
  list_index (Z.of_nat (length l)) i = Some n ->
  py_setitem (<[n := v]> l) i w = Some (<[n := w]> l).
Proof.
  intros Hn. unfold py_setitem. rewrite length_insert, Hn.
  now rewrite list_insert_insert_eq.
Qed.

(** ** The twist, one iteration at a time *)

Lemma twist_word_word (a b c : Z) : word (twist_word a b c).
Proof. apply mask_word. Qed.

Lemma twist_body_run (i : Z) (s : t) :
  twist_body i s =
  match twist_body_list (mt s) i with
  | Some l' => (Ok tt, mk l' (index s))
  | None => (Raise IndexError, s)
  end.
Proof.
  destruct s as [l k].
  unfold twist_body, twist_body_list, mbind, action_bind. simpl.
  unfold getitem at 1. unfold py_getitem at 1. simpl.
  destruct (list_index (Z.of_nat (length l)) i) as [n |] eqn:Hn; [| reflexivity].
  assert (Hlt : (n < length l)%nat) by (apply list_index_lt in Hn; lia).
  rewrite (list_lookup_lookup_total_lt l n Hlt).
  unfold getitem at 1. simpl.
  destruct (py_getitem l ((i + 1) `mod` N)) as [b |]; [| reflexivity].
  unfold getitem at 1. simpl.
  destruct (py_getitem l ((i + M) `mod` N)) as [c |]; [| reflexivity].
  unfold twist_word.
  set (y := Z.lor (Z.land (l !!! n) UPPER_MASK) (Z.land b LOWER_MASK)).
  unfold setitem at 1. unfold py_setitem at 1. simpl. rewrite Hn.
  destruct (Z.land y 1 =? 0); simpl.
  - unfold mret, action_ret, getitem, setitem. simpl.
    rewrite (py_getitem_insert l i _ n Hn). simpl.
    now rewrite (py_setitem_insert l i _ _ n Hn).
  - unfold getitem, setitem. simpl.
    rewrite (py_getitem_insert l i _ n Hn). simpl.
    rewrite (py_setitem_insert l i _ _ n Hn). simpl.
    rewrite (py_getitem_insert l i _ n Hn). simpl.
    now rewrite (py_setitem_insert l i _ _ n Hn).
Qed.

Lemma twist_loop_run (idxs : list Z) (s : t) :
  for_ idxs twist_body s =
  match twist_loop_list idxs (mt s) with
  | Some l' => (Ok tt, mk l' (index s))
  | None => (Raise IndexError, snd (for_ idxs twist_body s))
  end.
Proof.
  revert s. induction idxs as [| i idxs IH]; intros s.
  - destruct s; reflexivity.
  - simpl. unfold mbind, action_bind. rewrite twist_body_run.
    destruct (twist_body_list (mt s) i) as [l' |]; [| reflexivity].
    rewrite IH. simpl.
    destruct (twist_loop_list idxs l'); reflexivity.
Qed.

Lemma twist_run (s : t) :
  twist s =
  match twist_loop_list (py_range 0 N 1) (mt s) with
  | Some l' => (Ok tt, mk l' 0)
  | None => (Raise IndexError, snd (twist s))
  end.
Proof.
  unfold twist, mbind, action_bind. rewrite twist_loop_run.
  destruct (twist_loop_list _ (mt s)); reflexivity.
Qed.

(** ** The twist on an array of 624 words *)

Lemma twist_step_length (l : list Z) (i : nat) :
  length (twist_step l i) = length l.
Proof. apply length_insert. Qed.

Lemma to_nat_mod_N (i d : nat) :
  Z.to_nat ((Z.of_nat i + Z.of_nat d) `mod` N) = ((i + d) `mod` 624)%nat.
Proof.
  change N with (Z.of_nat 624).
  now rewrite <- Nat2Z.inj_add, <- Nat2Z.inj_mod, Nat2Z.id.
Qed.

Lemma twist_body_list_in_range (l : list Z) (i : nat) :
  length l = 624%nat -> (i < 624)%nat ->
  twist_body_list l (Z.of_nat i) = Some (twist_step l i).
Proof.
  intros Hlen Hi. unfold twist_body_list, twist_step.
  rewrite list_index_in_range by lia. rewrite Nat2Z.id.
  assert (Hm : forall z, 0 <= z `mod` N < Z.of_nat (length l)).
  { intros z. rewrite Hlen. apply Z.mod_pos_bound. reflexivity. }
  rewrite !py_getitem_in_range by apply Hm.
  change 1 with (Z.of_nat 1). change M with (Z.of_nat 397).
  now rewrite !to_nat_mod_N.
Qed.

Lemma twist_loop_list_seq (a k : nat) (l : list Z) :
  length l = 624%nat -> (a + k <= 624)%nat ->
  twist_loop_list (map Z.of_nat (seq a k)) l = Some (fold_left twist_step (seq a k) l).
Proof.
  revert a l. induction k as [| k IH]; intros a l Hlen Hk; [reflexivity |].
  simpl. rewrite twist_body_list_in_range by lia.
  apply IH; [now rewrite twist_step_length | lia].
Qed.

Lemma py_range_nat (k : nat) : py_range 0 (Z.of_nat k) 1 = map Z.of_nat (seq 0 k).
Proof.
  unfold py_range. simpl.
  replace (Z.of_nat k - 0 + 1 - 1) with (Z.of_nat k) by lia.
  rewrite Z.div_1_r, Nat2Z.id.
  apply map_ext. intros j. lia.
Qed.

Lemma twist_prefix_in_range (k : nat) (s : t) :
  length (mt s) = 624%nat -> (k <= 624)%nat ->
  twist_prefix (Z.of_nat k) s = (Ok tt, mk (twist_prefix_list k (mt s)) (index s)).
Proof.
  intros Hlen Hk. unfold twist_prefix.
  rewrite twist_loop_run, py_range_nat, twist_loop_list_seq by (simpl; lia).
  reflexivity.
Qed.

Lemma twist_in_range (s : t) :
  length (mt s) = 624%nat -> twist s = (Ok tt, mk (twist_list (mt s)) 0).
Proof.
  intros Hlen. unfold twist, mbind, action_bind.
  change (for_ (py_range 0 N 1) twist_body) with (twist_prefix (Z.of_nat 624)).
  rewrite twist_prefix_in_range by (exact Hlen || apply le_n).
  unfold set_index, twist_list. cbn [mt index]. reflexivity.
Qed.

Lemma twist_prefix_list_length (k : nat) (l : list Z) :
  length (twist_prefix_list k l) = length l.
Proof.
  unfold twist_prefix_list. generalize 0%nat. revert l.
  induction k as [| k IH]; intros l a; [reflexivity |].
  simpl. now rewrite IH, twist_step_length.
Qed.

Lemma twist_prefix_list_S (k : nat) (l : list Z) :
  twist_prefix_list (Datatypes.S k) l = twist_step (twist_prefix_list k l) k.
Proof.
  unfold twist_prefix_list. now rewrite seq_S, fold_left_app.
Qed.

(** Entries at or after the loop counter still hold their old value. *)
Lemma twist_prefix_list_ge (k j : nat) (l : list Z) :
  (k <= j)%nat -> twist_prefix_list k l !!! j = l !!! j.
Proof.
  induction k as [| k IH]; intros Hj; [reflexivity |].
  rewrite twist_prefix_list_S. unfold twist_step.
  rewrite list_lookup_total_insert_ne by lia. apply IH. lia.
Qed.

(** Entries before the loop counter already hold their final value. *)
Lemma twist_prefix_list_lt (k k' j : nat) (l : list Z) :
  (j < k)%nat -> (k <= k')%nat ->
  twist_prefix_list k' l !!! j = twist_prefix_list k l !!! j.
Proof.
  intros Hj Hk. induction Hk as [| k' Hk IH]; [reflexivity |].
  rewrite twist_prefix_list_S. unfold twist_step.
  rewrite list_lookup_total_insert_ne by lia. exact IH.
Qed.

Lemma twist_list_length (l : list Z) : length (twist_list l) = length l.
Proof. apply twist_prefix_list_length. Qed.

Lemma twist_list_lookup (l : list Z) (i : nat) :
  length l = 624%nat -> (i < 624)%nat ->
  let before := twist_prefix_list i l in
  twist_list l !!! i =
  twist_word (before !!! i)
             (before !!! ((i + 1) `mod` 624)%nat)
             (before !!! ((i + 397) `mod` 624)%nat).
Proof.
  intros Hlen Hi before. unfold twist_list.
  rewrite (twist_prefix_list_lt (Datatypes.S i) 624 i) by lia.
  rewrite twist_prefix_list_S. unfold twist_step.
  apply list_lookup_total_insert_eq.
  rewrite twist_prefix_list_length. lia.
Qed.

(** ** Producing outputs *)

Lemma refill_well_formed (s : t) :
  well_formed s -> length (mt (refill s)) = 624%nat /\ 0 <= index (refill s) < N.
Proof.
  intros [Hlen Hidx]. unfold refill.
  destruct (N <=? index s) eqn:E; cbn [mt index].
  - rewrite twist_list_length. split; [exact Hlen | now split].
  - apply Z.leb_gt in E. split; [exact Hlen | lia].
Qed.

Lemma next_uint32_run (s : t) :
  well_formed s ->
  next_uint32 s =
  (Ok (temper (mt (refill s) !!! Z.to_nat (index (refill s)))),
   mk (mt (refill s)) (index (refill s) + 1)).
Proof.
  intros Hwf. pose proof (refill_well_formed s Hwf) as [Hlen Hidx].
  unfold next_uint32, mbind, action_bind, get_index.
  assert (Hfill : (if N <=? index s then twist else mret tt) s = (Ok tt, refill s)).
  { unfold refill. destruct (N <=? index s).
    - apply twist_in_range, Hwf.
    - reflexivity. }
  rewrite Hfill. unfold getitem.
  rewrite py_getitem_in_range by (rewrite Hlen; exact Hidx).
  reflexivity.
Qed.

Lemma next_uint32_well_formed (s : t) :
  well_formed s -> well_formed (snd (next_uint32 s)).
Proof.
  intros Hwf. rewrite next_uint32_run by exact Hwf.
  pose proof (refill_well_formed s Hwf) as [Hlen Hidx].
  split; cbn [snd mt index]; [exact Hlen | lia].
Qed.

(** Drawing never fails on a well-formed instance, whatever the count. *)
Lemma draw_total (n : nat) (s : t) :
  well_formed s ->
  exists outs s', draw n s = (Ok outs, s') /\ length outs = n /\ well_formed s'.
Proof.
  revert s. induction n as [| n IH]; intros s Hwf.
  - exists [], s. repeat split; apply Hwf.
  - pose proof (next_uint32_well_formed s Hwf) as Hwf'.
    rewrite next_uint32_run in Hwf' by exact Hwf.
    destruct (IH _ Hwf') as (outs & s' & Hd & Hl & Hs').
    eexists (_ :: outs), s'. split; [| split; [simpl; now rewrite Hl | exact Hs']].
    cbn [draw]. unfold mbind, action_bind.
    rewrite next_uint32_run by exact Hwf.
    cbn [snd] in Hd. rewrite Hd. reflexivity.
Qed.

Lemma seed_from_state_run (ws : list Z) (e : t) :
  seed_from_state ws e =
  if Nat.eqb (length ws) 624
  then (Ok tt, mk (map (fun x => Z.land x 0xFFFFFFFF) ws) N)
  else (Raise ValueError, e).
Proof.
  unfold seed_from_state.
  destruct (Nat.eqb (length ws) 624) eqn:E.
  - apply Nat.eqb_eq in E. rewrite E. reflexivity.
  - apply Nat.eqb_neq in E.
    assert (H : (Z.of_nat (length ws) =? N) = false).
    { apply Z.eqb_neq. change N with (Z.of_nat 624). lia. }
    rewrite H. reflexivity.
Qed.

(** ** Tempering *)

Lemma wrap32_mask (x : Z) : TemperSpec.wrap32 x = Z.land x 0xFFFFFFFF.
Proof.
  unfold TemperSpec.wrap32. change 0xFFFFFFFF with (Z.ones 32).
  now rewrite Z.land_ones by lia.
Qed.

Lemma wrap32_word (x : Z) : word x -> TemperSpec.wrap32 x = x.
Proof. intros Hx. rewrite wrap32_mask. now apply word_mask. Qed.

Lemma wrap32_land (x m : Z) : word m -> Z.land (TemperSpec.wrap32 x) m = Z.land x m.
Proof.
  intros Hm. rewrite wrap32_mask, <- Z.land_assoc.
  f_equal. rewrite Z.land_comm. now apply word_mask.
Qed.

Lemma right_shift_xor_word (k x : Z) :
  0 <= k -> word x ->
  TemperSpec.right_shift_xor k x = Z.lxor x (Z.shiftr x k) /\
  word (Z.lxor x (Z.shiftr x k)).
Proof.
  intros Hk Hx.
  assert (Hw : word (Z.lxor x (Z.shiftr x k)))
    by (apply word_lxor; [exact Hx | now apply word_shiftr]).
  split; [now apply wrap32_word | exact Hw].
Qed.

Lemma left_shift_xor_and_word (k m x : Z) :
  word m -> word x ->
  TemperSpec.left_shift_xor_and k m x = Z.lxor x (Z.land (Z.shiftl x k) m) /\
  word (Z.lxor x (Z.land (Z.shiftl x k) m)).
Proof.
  intros Hm Hx.
  assert (Hw : word (Z.lxor x (Z.land (Z.shiftl x k) m)))
    by (apply word_lxor; [exact Hx | now apply word_land_r]).
  unfold TemperSpec.left_shift_xor_and.
  rewrite wrap32_land by exact Hm.
  split; [now apply wrap32_word | exact Hw].
Qed.

(** C7. On every 32-bit word, [temper] is the composition of the four steps
    of the specification, in their order and each confined to 32 bits:
    [x ^= x >> 11], [x ^= (x << 7) & 0x9D2C5680],
    [x ^= (x << 15) & 0xEFC60000], [x ^= x >> 18]. *)
Theorem temper_four_steps (x : Z) :
  word x -> temper x = TemperSpec.temper_steps x.
Proof.
  intros Hx. unfold temper, TemperSpec.temper_steps.
  unfold Tempering.U, Tempering.S, Tempering.B, Tempering.T, Tempering.C, Tempering.L.
  destruct (right_shift_xor_word 11 x) as [-> H1]; [lia | exact Hx |].
  set (x1 := Z.lxor x (Z.shiftr x 11)) in *.
  destruct (left_shift_xor_and_word 7 0x9D2C5680 x1) as [-> H2];
    [unfold word; lia | exact H1 |].
  set (x2 := Z.lxor x1 (Z.land (Z.shiftl x1 7) 0x9D2C5680)) in *.
  destruct (left_shift_xor_and_word 15 0xEFC60000 x2) as [-> H3];
    [unfold word; lia | exact H2 |].
  set (x3 := Z.lxor x2 (Z.land (Z.shiftl x2 15) 0xEFC60000)) in *.
  destruct (right_shift_xor_word 18 x3) as [-> H4]; [lia | exact H3 |].
  now apply word_mask.
Qed.

Lemma temper_four_steps_witness :
  word 0x12345678 /\ temper 0x12345678 = TemperSpec.temper_steps 0x12345678.
Proof.
  assert (H : word 0x12345678) by (unfold word; lia).
  split; [exact H | apply (temper_four_steps 0x12345678 H)].
Defined.

(** ** Untempering *)

(** [undo_right_shift_xor] assembles its result from the lowest chunk
    upwards, so the bits it shifts down from [x] are not the recovered high
    bits of the original: with a shift of 18 it hands its argument back. *)
Example undo_right_shift_xor_18 :
  Z.lxor 0x40001 (Z.shiftr 0x40001 18) = 0x40000 /\
  undo_right_shift_xor 0x40000 18 = 0x40000.
Proof. split; reflexivity. Qed.

(** [undo_left_shift_xor_and] does invert its step on the same kind of
    input. *)
Example undo_left_shift_xor_and_7 :
  undo_left_shift_xor_and
    (Z.lxor 0x81 (Z.land (Z.shiftl 0x81 Tempering.S) Tempering.B))
    Tempering.S Tempering.B = 0x81.
Proof. reflexivity. Qed.

(** C2, at the word 1. [untemper] does not invert [temper], on either side:
    [temper 1] is [0x400091] and [untemper] maps it to 17;
    [untemper 1] is [0x12204081] and [temper] maps it to [0x232648c0]. *)
Theorem untemper_temper_one :
  word 1 /\
  temper 1 = 0x400091 /\ untemper (temper 1) = 17 /\
  untemper 1 = 0x12204081 /\ temper (untemper 1) = 0x232648c0.
Proof. split; [unfold word; lia | repeat split; reflexivity]. Qed.

(** ** Seeding *)

(** C3. [seed_from_state] raises its length error exactly when the sequence
    does not have 624 elements, and succeeds exactly when it has. *)
Theorem seed_from_state_length (ws : list Z) (e : t) :
  (fst (seed_from_state ws e) = Raise ValueError <-> length ws <> 624%nat) /\
  (fst (seed_from_state ws e) = Ok tt <-> length ws = 624%nat).
Proof.
  rewrite seed_from_state_run.
  destruct (Nat.eqb (length ws) 624) eqn:E.
  - apply Nat.eqb_eq in E. cbn [fst]. split; split; intros H; congruence.
  - apply Nat.eqb_neq in E. cbn [fst]. split; split; intros H; congruence.
Qed.

(** C4, as stated, fails: seeding with 625 words raises, and the instance
    is not seeded from the first 624 of them. *)
Lemma seed_from_state_no_truncation :
  seed_from_state words_625 __init__ = (Raise ValueError, __init__) /\
  seed_from_state words_625 __init__ <>
    (Ok tt, mk (map (fun x => Z.land x 0xFFFFFFFF) (take 624 words_625)) N).
Proof.
  assert (H : seed_from_state words_625 __init__ = (Raise ValueError, __init__))
    by (rewrite seed_from_state_run; reflexivity).
  split; [exact H | rewrite H; discriminate].
Qed.

(** C4, amended. A sequence of more than 624 words is rejected like a
    shorter one: the call raises the length error and keeps the instance. *)
Theorem seed_from_state_rejects_longer (ws : list Z) (e : t) :
  (624 < length ws)%nat -> seed_from_state ws e = (Raise ValueError, e).
Proof.
  intros Hlen. rewrite seed_from_state_run.
  destruct (Nat.eqb (length ws) 624) eqn:E; [| reflexivity].
  apply Nat.eqb_eq in E. lia.
Qed.

Lemma seed_from_state_rejects_longer_witness :
  (624 < length words_625)%nat /\
  seed_from_state words_625 __init__ = (Raise ValueError, __init__).
Proof.
  assert (H : (624 < length words_625)%nat) by (apply Nat.ltb_lt; reflexivity).
  split; [exact H | apply (seed_from_state_rejects_longer words_625 __init__ H)].
Defined.

(** C9. A call of [seed_from_state] that fails leaves the array and the
    cursor of the instance as they were. *)
Theorem seed_from_state_atomic (ws : list Z) (e : t) :
  length ws <> 624%nat ->
  mt (snd (seed_from_state ws e)) = mt e /\
  index (snd (seed_from_state ws e)) = index e.
Proof.
  intros Hlen. rewrite seed_from_state_run.
  destruct (Nat.eqb (length ws) 624) eqn:E.
  - apply Nat.eqb_eq in E. contradiction.
  - split; reflexivity.
Qed.

Lemma seed_from_state_atomic_witness :
  length [1; 2; 3] <> 624%nat /\
  mt (snd (seed_from_state [1; 2; 3] (mk [7; 8] 1))) = [7; 8] /\
  index (snd (seed_from_state [1; 2; 3] (mk [7; 8] 1))) = 1.
Proof.
  assert (H : length [1; 2; 3] <> 624%nat) by (simpl; lia).
  split; [exact H | apply (seed_from_state_atomic [1; 2; 3] (mk [7; 8] 1) H)].
Defined.

(** ** An instance that was never seeded *)

Lemma twist_list_zeros : twist_list (replicate 624 0) = replicate 624 0.
Proof. vm_compute. reflexivity. Qed.

Lemma next_uint32_zeros (s : t) :
  mt s = replicate 624 0 -> 0 <= index s <= N ->
  exists s', next_uint32 s = (Ok 0, s') /\
             mt s' = replicate 624 0 /\ 0 <= index s' <= N.
Proof.
  intros Hmt Hidx.
  assert (Hwf : well_formed s)
    by (split; [rewrite Hmt; apply length_replicate | exact Hidx]).
  pose proof (refill_well_formed s Hwf) as [_ Hidx'].
  assert (Hmt' : mt (refill s) = replicate 624 0).
  { unfold refill. destruct (N <=? index s); cbn [mt]; [| exact Hmt].
    rewrite Hmt. apply twist_list_zeros. }
  eexists. split; [| split].
  - rewrite next_uint32_run by exact Hwf. rewrite Hmt'.
    rewrite lookup_total_replicate_2 by (change N with (Z.of_nat 624) in Hidx'; lia).
    reflexivity.
  - reflexivity.
  - cbn [index]. lia.
Qed.

Lemma draw_zeros (n : nat) (s : t) :
  mt s = replicate 624 0 -> 0 <= index s <= N ->
  exists s', draw n s = (Ok (replicate n 0), s').
Proof.
  revert s. induction n as [| n IH]; intros s Hmt Hidx.
  - exists s. reflexivity.
  - destruct (next_uint32_zeros s Hmt Hidx) as (s1 & Hs1 & Hmt1 & Hidx1).
    destruct (IH s1 Hmt1 Hidx1) as (s' & Hs').
    exists s'. cbn [draw]. unfold mbind, action_bind.
    rewrite Hs1, Hs'. reflexivity.
Qed.

(** C6, as stated, fails: on a new instance [next_uint32] raises nothing
    and returns 0. *)
Lemma unseeded_next_uint32_returns :
  fst (next_uint32 __init__) = Ok 0 /\
  forall e : exn, fst (next_uint32 __init__) <> Raise e.
Proof.
  assert (H : fst (next_uint32 __init__) = Ok 0) by (vm_compute; reflexivity).
  split; [exact H | intros e; rewrite H; discriminate].
Qed.

(** C6, amended. On an instance that was never seeded no call of
    [next_uint32] raises: the constructor leaves an all-zero array with the
    cursor at its end, the first call twists it, and every call returns 0. *)
Theorem unseeded_draw_zeros (n : nat) :
  exists s', draw n __init__ = (Ok (replicate n 0), s').
Proof.
  apply draw_zeros; [reflexivity | unfold __init__, index, N; lia].
Qed.

(** ** Determinism *)

(** C8. Two instances, whatever their history, seeded from the same 624
    words are in the same state, and from it any number of [next_uint32]
    calls succeeds with the same outputs on both. *)
Theorem seeded_engines_agree (S : list Z) (e1 e2 : t) (n : nat) :
  length S = 624%nat ->
  exists e outs e',
    seed_from_state S e1 = (Ok tt, e) /\
    seed_from_state S e2 = (Ok tt, e) /\
    draw n e = (Ok outs, e') /\
    length outs = n.
Proof.
  intros Hlen.
  set (e := mk (map (fun x => Z.land x 0xFFFFFFFF) S) N).
  assert (Hseed : forall e0, seed_from_state S e0 = (Ok tt, e)).
  { intros e0. rewrite seed_from_state_run, Hlen. reflexivity. }
  assert (Hwf : well_formed e).
  { split; cbn [e mt index]; [now rewrite length_map | unfold N; lia]. }
  destruct (draw_total n e Hwf) as (outs & e' & Hd & Hl & _).
  exists e, outs, e'. auto.
Qed.

Lemma seeded_engines_agree_witness :
  length (replicate 624 5) = 624%nat /\
  exists e outs e',
    seed_from_state (replicate 624 5) __init__ = (Ok tt, e) /\
    seed_from_state (replicate 624 5) (mk [] 0) = (Ok tt, e) /\
    draw 3 e = (Ok outs, e') /\
    length outs = 3%nat.
Proof.
  assert (H : length (replicate 624 5) = 624%nat) by reflexivity.
  split; [exact H |].
  apply (seeded_engines_agree (replicate 624 5) __init__ (mk [] 0) 3 H).
Defined.

(** ** The state invariant *)

Lemma twist_body_list_word (l l' : list Z) (i : Z) :
  twist_body_list l i = Some l' -> Forall word l -> Forall word l'.
Proof.
  unfold twist_body_list.
  destruct (list_index _ i) as [n |]; [| discriminate].
  destruct (py_getitem l ((i + 1) `mod` N)) as [b |]; [| discriminate].
  destruct (py_getitem l ((i + M) `mod` N)) as [c |]; [| discriminate].
  intros [= <-] Hl. apply Forall_insert; [exact Hl | apply twist_word_word].
Qed.

Lemma twist_loop_list_word (idxs : list Z) (l l' : list Z) :
  twist_loop_list idxs l = Some l' -> Forall word l -> Forall word l'.
Proof.
  revert l. induction idxs as [| i idxs IH]; intros l; simpl.
  - now intros [= <-].
  - destruct (twist_body_list l i) as [l1 |] eqn:E; [| discriminate].
    intros Hl' Hl. apply (IH l1 Hl'). eapply twist_body_list_word; eauto.
Qed.

Lemma init_ok : state_ok __init__.
Proof.
  split.
  - apply Forall_replicate. unfold word. lia.
  - unfold __init__, index, N. lia.
Qed.

Lemma seed_from_state_ok (ws : list Z) (e e' : t) :
  seed_from_state ws e = (Ok tt, e') -> state_ok e'.
Proof.
  rewrite seed_from_state_run.
  destruct (Nat.eqb (length ws) 624); [| discriminate].
  intros [= <-]. split; cbn [mt index].
  - apply Forall_forall. intros x Hx.
    apply list_elem_of_fmap in Hx as (y & -> & _). apply mask_word.
  - unfold N. lia.
Qed.

Lemma twist_ok (e e' : t) :
  state_ok e -> twist e = (Ok tt, e') -> state_ok e'.
Proof.
  intros [Hmt _]. rewrite twist_run.
  destruct (twist_loop_list (py_range 0 N 1) (mt e)) as [l |] eqn:E; [| discriminate].
  intros [= <-]. split; cbn [mt index].
  - eapply twist_loop_list_word; eauto.
  - unfold N. lia.
Qed.

Lemma next_uint32_ok (e e' : t) (v : Z) :
  state_ok e -> next_uint32 e = (Ok v, e') -> state_ok e'.
Proof.
  intros Hok. unfold next_uint32, mbind, action_bind, get_index.
  destruct (N <=? index e) eqn:Hfull.
  - destruct (twist e) as [[[] | x] e1] eqn:Ht; [| discriminate].
    pose proof (twist_ok e e1 Hok Ht) as [Hmt1 _].
    assert (Hidx1 : index e1 = 0).
    { rewrite twist_run in Ht.
      destruct (twist_loop_list (py_range 0 N 1) (mt e)); [| discriminate].
      now injection Ht as <-. }
    unfold getitem.
    destruct (py_getitem (mt e1) (index e1)); [| discriminate].
    intros [= _ <-]. split; cbn [mt index]; [exact Hmt1 |].
    rewrite Hidx1. unfold N. lia.
  - apply Z.leb_gt in Hfull. destruct Hok as [Hmt Hidx].
    unfold mret, action_ret, getitem.
    destruct (py_getitem (mt e) (index e)); [| discriminate].
    intros [= _ <-]. split; cbn [mt index]; [exact Hmt | lia].
Qed.

(** C10. The invariant holds after construction, after every successful
    [seed_from_state], and is kept by every successful [twist] and
    [next_uint32]: all stored words lie in [0, 2^32) and the cursor lies in
    [0, 624]. *)
Theorem state_invariant :
  state_ok __init__ /\
  (forall ws e e', seed_from_state ws e = (Ok tt, e') -> state_ok e') /\
  (forall e e', state_ok e -> twist e = (Ok tt, e') -> state_ok e') /\
  (forall e v e', state_ok e -> next_uint32 e = (Ok v, e') -> state_ok e').
Proof.
  split; [exact init_ok |].
  split; [exact seed_from_state_ok |].
  split; [exact twist_ok |].
  intros e v e'. apply next_uint32_ok.
Qed.

Lemma state_invariant_witness :
  state_ok (mk (replicate 624 0) 1) /\
  state_ok (mk (replicate 624 0) 0) /\
  state_ok (mk (replicate 624 5) N).
Proof.
  destruct state_invariant as (Hinit & Hseed & Htwist & Hnext).
  split; [| split].
  - apply (Hnext __init__ 0 _ Hinit). vm_compute. reflexivity.
  - apply (Htwist __init__ _ Hinit). vm_compute. reflexivity.
  - apply (Hseed (replicate 624 5) (mk [] 0)). vm_compute. reflexivity.
Defined.

(** ** How the twist reads the array *)

(** C5, as stated, fails on [array_one]: when iteration 227 starts, entry
    [(227 + 397) % 624 = 0] no longer holds its old value, and the array the
    twist leaves is not the one computed from the snapshot. *)
Lemma twist_reads_rewritten_entries :
  length array_one = 624%nat /\
  Forall word array_one /\
  mt (snd (twist_prefix 227 (generator array_one))) !!! 0%nat <> array_one !!! 0%nat /\
  twist (generator array_one) <> (Ok tt, mk (twist_snapshot array_one) 0).
Proof.
  split; [reflexivity |].
  split.
  { apply Forall_insert; [apply Forall_replicate |]; unfold word; lia. }
  split.
  - vm_compute. discriminate.
  - intros H.
    apply (f_equal (fun r => mt (snd r) !!! 227%nat)) in H.
    vm_compute in H. discriminate.
Qed.

(** C5, amended. On a 624-word array the twist succeeds, and iteration [i]
    stores [twist_word] of the three words it reads from the array as the
    earlier iterations left it.  The word at [i] is the old one.  The word
    at [(i + 1) % 624] is the old one for [i < 623]; for [i = 623] it is the
    new [mt[0]].  The word at [(i + 397) % 624] is the old one for
    [i < 227]; for [i >= 227] it is the new [mt[i - 227]]. *)
Theorem twist_reads (s : t) (i : nat) :
  length (mt s) = 624%nat -> (i < 624)%nat ->
  let before := snd (twist_prefix (Z.of_nat i) s) in
  let after := snd (twist s) in
  fst (twist s) = Ok tt /\
  mt after !!! i =
    twist_word (mt before !!! i)
               (mt before !!! ((i + 1) `mod` 624)%nat)
               (mt before !!! ((i + 397) `mod` 624)%nat) /\
  mt before !!! i = mt s !!! i /\
  mt before !!! ((i + 1) `mod` 624)%nat =
    (if (i <? 623)%nat then mt s !!! (i + 1)%nat else mt after !!! 0%nat) /\
  mt before !!! ((i + 397) `mod` 624)%nat =
    (if (i <? 227)%nat then mt s !!! (i + 397)%nat else mt after !!! (i - 227)%nat).
Proof.
  intros Hlen Hi before after. subst before after.
  rewrite twist_in_range by exact Hlen.
  rewrite twist_prefix_in_range by (exact Hlen || lia).
  cbn [fst snd mt].
  split; [reflexivity |].
  split; [now apply twist_list_lookup |].
  split; [now apply twist_prefix_list_ge |].
  split.
  - destruct (i <? 623)%nat eqn:E.
    + apply Nat.ltb_lt in E. rewrite Nat.mod_small by lia.
      apply twist_prefix_list_ge. lia.
    + apply Nat.ltb_ge in E. assert (i = 623%nat) as -> by lia.
      change ((623 + 1) `mod` 624)%nat with 0%nat.
      unfold twist_list. symmetry. apply twist_prefix_list_lt; lia.
  - destruct (i <? 227)%nat eqn:E.
    + apply Nat.ltb_lt in E. rewrite Nat.mod_small by lia.
      apply twist_prefix_list_ge. lia.
    + apply Nat.ltb_ge in E.
      replace (i + 397)%nat with ((i - 227) + 1 * 624)%nat by lia.
      rewrite Nat.Div0.mod_add, Nat.mod_small by lia.
      unfold twist_list. symmetry. apply twist_prefix_list_lt; lia.
Qed.

Lemma twist_reads_witness :
  length (mt (generator array_one)) = 624%nat /\ (227 < 624)%nat /\
  fst (twist (generator array_one)) = Ok tt.
Proof.
  assert (Hlen : length (mt (generator array_one)) = 624%nat) by reflexivity.
  assert (Hi : (227 < 624)%nat) by (apply Nat.ltb_lt; reflexivity).
  split; [exact Hlen | split; [exact Hi |]].
  exact (proj1 (twist_reads (generator array_one) 227 Hlen Hi)).
Defined.

(** ** Reconstruction from observed outputs *)

Lemma draw_S (n : nat) :
  draw (Datatypes.S n) = (v ← next_uint32; l ← draw n; mret (v :: l)).
Proof. reflexivity. Qed.

(** Away from the end of the array, drawing reads the words in order. *)
Lemma draw_within (k j : nat) (l : list Z) :
  length l = 624%nat -> (j + k <= 624)%nat ->
  draw k (mk l (Z.of_nat j)) =
  (Ok (map temper (take k (drop j l))), mk l (Z.of_nat (j + k))).
Proof.
  intros Hlen. revert j. induction k as [| k IH]; intros j Hj.
  - rewrite Nat.add_0_r. reflexivity.
  - assert (Hwf : well_formed (mk l (Z.of_nat j))).
    { split; cbn [mt index]; [exact Hlen |]. change N with (Z.of_nat 624). lia. }
    assert (Hfill : refill (mk l (Z.of_nat j)) = mk l (Z.of_nat j)).
    { unfold refill. cbn [index].
      destruct (N <=? Z.of_nat j) eqn:E; [| reflexivity].
      apply Z.leb_le in E. change N with (Z.of_nat 624) in E. lia. }
    rewrite draw_S. unfold mbind, action_bind.
    rewrite next_uint32_run by exact Hwf. rewrite Hfill. cbn [mt index].
    replace (Z.of_nat j + 1) with (Z.of_nat (Datatypes.S j)) by lia.
    rewrite IH by lia. rewrite Nat2Z.id.
    rewrite (drop_S l (l !!! j) j) by (apply list_lookup_lookup_total_lt; lia).
    unfold mret, action_ret. cbn [take map].
    replace (Datatypes.S j + k)%nat with (j + Datatypes.S k)%nat by lia.
    reflexivity.
Qed.

(** What the observer sees: the tempered words of the twisted array, and a
    generator that is at the end of that array. *)
Lemma observe_run (S : list Z) :
  length S = 624%nat ->
  observe S = (Ok (map temper (twist_list S)), mk (twist_list S) N).
Proof.
  intros Hlen. unfold observe, generator.
  change 624%nat with (Datatypes.S 623) at 1.
  rewrite draw_S. unfold mbind, action_bind.
  assert (Hwf : well_formed (mk S N)) by (split; [exact Hlen | cbn [index]; unfold N; lia]).
  rewrite next_uint32_run by exact Hwf.
  assert (Hfill : refill (mk S N) = mk (twist_list S) 0) by reflexivity.
  rewrite Hfill. cbn [mt index].
  assert (HlenT : length (twist_list S) = 624%nat) by now rewrite twist_list_length.
  change (0 + 1) with (Z.of_nat 1).
  rewrite draw_within by (exact HlenT || (apply Nat.leb_le; reflexivity)).
  unfold mret, action_ret.
  change (Z.to_nat 0) with 0%nat. change (Z.of_nat (1 + 623)) with N.
  rewrite (take_ge (drop 1 (twist_list S))) by (rewrite length_drop, HlenT; apply le_n).
  change (temper (twist_list S !!! 0%nat) :: map temper (drop 1 (twist_list S)))
    with (map temper (twist_list S !!! 0%nat :: drop 1 (twist_list S))).
  rewrite <- (drop_S (twist_list S) (twist_list S !!! 0%nat) 0)
    by (apply list_lookup_lookup_total_lt; rewrite HlenT; apply Nat.ltb_lt; reflexivity).
  rewrite drop_0. reflexivity.
Qed.

(** The rest of the pipeline is exact: whenever [untemper] does take back
    [temper] on the words of the twisted array, the reconstructed instance
    is the observed generator and predicts all of its outputs. *)
Lemma reconstruction_exact_if_inverted (S : list Z) (k : nat) :
  length S = 624%nat ->
  Forall (fun w => untemper (temper w) = w) (twist_list S) ->
  predicted S k = actual S k.
Proof.
  intros Hlen Hinv. unfold predicted, actual, reconstruct.
  rewrite observe_run by exact Hlen.
  rewrite seed_from_state_run, !length_map, twist_list_length, Hlen.
  rewrite Nat.eqb_refl.
  replace (map (fun x => Z.land x 0xFFFFFFFF) (map untemper (map temper (twist_list S))))
    with (twist_list S); [reflexivity |].
  rewrite !map_map. rewrite <- (map_id (twist_list S)) at 1.
  apply map_ext_Forall. eapply Forall_impl; [exact Hinv |].
  intros w Hw. cbn beta. rewrite Hw. symmetry. apply word_mask.
  rewrite <- Hw. apply mask_word.
Qed.

Example reconstruction_exact_zeros (k : nat) :
  predicted (replicate 624 0) k = actual (replicate 624 0) k.
Proof.
  apply reconstruction_exact_if_inverted; [reflexivity |].
  rewrite twist_list_zeros. apply Forall_replicate. reflexivity.
Qed.

(** C1, at [array_one]. The first output of the reconstructed instance is 0
    where the observed generator goes on with [0x44081102]: the words that
    [untemper] hands to [seed_from_state] are not the generator's array. *)
Theorem reconstruction_mispredicts :
  length array_one = 624%nat /\
  Forall word array_one /\
  predicted array_one 1 = Ok [0] /\
  actual array_one 1 = Ok [0x44081102].
Proof.
  split; [reflexivity |].
  split.
  { apply Forall_insert; [apply Forall_replicate |]; unfold word; lia. }
  split; vm_compute; reflexivity.
Qed.

(** * Further properties of the code *)

(** ** Bitwise reasoning *)

Lemma word_mod (x : Z) : word x -> x = x mod 2 ^ 32.
Proof. intros Hx. symmetry. apply Z.mod_small. exact Hx. Qed.

(** The chunk mask of both undo loops is [w] ones, [w] being the shift or
    what is left below bit 32. *)
Lemma chunk_mask_ones (i s : Z) :
  (if i + s <=? 32 then Z.shiftl 1 s - 1 else Z.shiftl 1 (32 - i) - 1) =
  Z.ones (Z.min s (32 - i)).
Proof.
  unfold Z.ones. rewrite <- Z.sub_1_r.
  destruct (Z.leb_spec (i + s) 32); f_equal; f_equal; lia.
Qed.

Lemma py_range_chunks (s : Z) :
  0 < s ->
  py_range 0 32 s =
  map (fun k => Z.of_nat k * s) (seq 0 (Z.to_nat ((32 + s - 1) / s))).
Proof.
  intros Hs. unfold py_range.
  destruct (Z.leb_spec s 0); [lia |].
  replace (32 - 0 + s - 1) with (32 + s - 1) by lia.
  apply map_ext. intros k. lia.
Qed.

(** The chunks start below bit 32 and together cover it. *)
Lemma chunk_count (s : Z) :
  0 < s ->
  let n := Z.to_nat ((32 + s - 1) / s) in
  32 <= Z.of_nat n * s /\ forall k : nat, (k < n)%nat -> Z.of_nat k * s < 32.
Proof.
  intros Hs n. subst n.
  pose proof (Z.div_mod (32 + s - 1) s ltac:(lia)) as Hdm.
  pose proof (Z.mod_pos_bound (32 + s - 1) s Hs) as Hmod.
  assert (Hq : 0 <= (32 + s - 1) / s) by (apply Z.div_pos; lia).
  rewrite Z2Nat.id by exact Hq.
  split; [nia |].
  intros k Hk. assert (Z.of_nat k <= (32 + s - 1) / s - 1) by lia. nia.
Qed.

(** ** [undo_left_shift_xor_and] *)

(** One iteration: with the bits of [x0] below [i] recovered, the chunk at
    [i] comes out right. *)
Lemma undo_left_chunk (x0 s m i : Z) :
  0 < s -> 0 <= i < 32 ->
  let y := Z.lxor x0 (Z.land (Z.shiftl x0 s) m) in
  let w := Z.min s (32 - i) in
  let xj := x0 mod 2 ^ i in
  Z.lor xj
    (Z.shiftl
       (Z.lxor (Z.land (Z.shiftr y i) (Z.ones w))
               (Z.land (Z.shiftr (Z.land (Z.shiftl xj s) m) i) (Z.ones w))) i)
  = x0 mod 2 ^ (i + w).
Proof.
  intros Hs Hi y w xj. subst y xj.
  assert (Hw : 0 <= w <= s) by lia.
  clearbody w.
  bitblast_deep.
Qed.

Lemma undo_left_fold (x0 s m : Z) (k : nat) :
  0 < s ->
  (k <= Z.to_nat ((32 + s - 1) / s))%nat ->
  fold_left
    (fun x i =>
       let part_mask :=
         if i + s <=? 32 then Z.shiftl 1 s - 1 else Z.shiftl 1 (32 - i) - 1 in
       let part := Z.land (Z.shiftr (Z.lxor x0 (Z.land (Z.shiftl x0 s) m)) i) part_mask in
       let prev := Z.land (Z.shiftl x s) m in
       let x_part := Z.lxor part (Z.land (Z.shiftr prev i) part_mask) in
       Z.lor x (Z.shiftl x_part i))
    (map (fun k => Z.of_nat k * s) (seq 0 k)) 0
  = x0 mod 2 ^ Z.min (Z.of_nat k * s) 32.
Proof.
  intros Hs. destruct (chunk_count s Hs) as [_ Hlt].
  induction k as [| k IH]; intros Hk.
  - simpl. now rewrite Z.mod_1_r.
  - rewrite seq_S, map_app, fold_left_app, IH by lia. cbn [map fold_left Nat.add].
    specialize (Hlt k ltac:(lia)).
    rewrite chunk_mask_ones.
    replace (Z.min (Z.of_nat k * s) 32) with (Z.of_nat k * s) by lia.
    rewrite (undo_left_chunk x0 s m (Z.of_nat k * s)) by lia.
    f_equal. f_equal. lia.
Qed.

Lemma undo_left_shift_xor_and_round_trip (x shift mask : Z) :
  word x -> 0 < shift ->
  undo_left_shift_xor_and (Z.lxor x (Z.land (Z.shiftl x shift) mask)) shift mask = x.
Proof.
  intros Hx Hs. unfold undo_left_shift_xor_and.
  rewrite py_range_chunks by exact Hs.
  rewrite undo_left_fold by (exact Hs || apply le_n).
  destruct (chunk_count shift Hs) as [Hge _].
  rewrite Z.min_r by exact Hge.
  rewrite (Z.mod_small x) by exact Hx.
  now apply word_mask.
Qed.

(** X1. For every positive shift and every mask, [undo_left_shift_xor_and]
    takes back the step [x ^= (x << shift) & mask] on every 32-bit word. *)
Theorem undo_left_shift_xor_and_inverts (x shift mask : Z) :
  word x -> 0 < shift ->
  undo_left_shift_xor_and (Z.lxor x (Z.land (Z.shiftl x shift) mask)) shift mask = x.
Proof. exact (undo_left_shift_xor_and_round_trip x shift mask). Qed.

Lemma undo_left_shift_xor_and_inverts_witness :
  word 0x12345678 /\ 0 < Tempering.S /\
  undo_left_shift_xor_and
    (Z.lxor 0x12345678 (Z.land (Z.shiftl 0x12345678 Tempering.S) Tempering.B))
    Tempering.S Tempering.B = 0x12345678.
Proof.
  assert (Hx : word 0x12345678) by (unfold word; lia).
  assert (Hs : 0 < Tempering.S) by reflexivity.
  split; [exact Hx | split; [exact Hs |]].
  apply (undo_left_shift_xor_and_inverts 0x12345678 Tempering.S Tempering.B Hx Hs).
Defined.

(** ** [undo_right_shift_xor] *)

(** X2. With the shift 18 of [untemper], [undo_right_shift_xor] returns
    every 32-bit word unchanged. *)
Theorem undo_right_shift_xor_18_identity (y : Z) :
  word y -> undo_right_shift_xor y Tempering.L = y.
Proof.
  intros Hy. unfold undo_right_shift_xor, Tempering.L.
  change (py_range 0 32 18) with [0; 18]. cbn [fold_left].
  change (0 + 18 <=? 32) with true. change (18 + 18 <=? 32) with false. cbv iota.
  change (Z.shiftl 1 18 - 1) with (Z.ones 18).
  change (Z.shiftl 1 (32 - 18) - 1) with (Z.ones 14).
  change 4294967295 with (Z.ones 32).
  rewrite (word_mod y Hy) at 4.
  bitblast_deep.
Qed.

Lemma undo_right_shift_xor_18_identity_witness :
  word 0x12345678 /\ undo_right_shift_xor 0x12345678 Tempering.L = 0x12345678.
Proof.
  assert (Hy : word 0x12345678) by (unfold word; lia).
  split; [exact Hy | apply (undo_right_shift_xor_18_identity 0x12345678 Hy)].
Defined.

(** X3. With the shift 11 of [untemper], [undo_right_shift_xor] maps every
    32-bit word [y] to [y ^ ((y << 11) & 0xFFC00000)]: the two lower chunks
    are copied and the top ten bits are mixed with bits 11 to 20. *)
Theorem undo_right_shift_xor_11_closed_form (y : Z) :
  word y ->
  undo_right_shift_xor y Tempering.U =
  Z.lxor y (Z.land (Z.shiftl y 11) 0xFFC00000).
Proof.
  intros Hy. unfold undo_right_shift_xor, Tempering.U.
  change (py_range 0 32 11) with [0; 11; 22]. cbn [fold_left].
  change (0 + 11 <=? 32) with true. change (11 + 11 <=? 32) with true.
  change (22 + 11 <=? 32) with false. cbv iota.
  change (Z.shiftl 1 11 - 1) with (Z.ones 11).
  change (Z.shiftl 1 (32 - 22) - 1) with (Z.ones 10).
  change 4294967295 with (Z.ones 32).
  change 0xFFC00000 with (Z.shiftl (Z.ones 10) 22).
  rewrite (word_mod y Hy).
  bitblast_deep.
Qed.

Lemma undo_right_shift_xor_11_closed_form_witness :
  word 0x12345678 /\
  undo_right_shift_xor 0x12345678 Tempering.U =
  Z.lxor 0x12345678 (Z.land (Z.shiftl 0x12345678 11) 0xFFC00000).
Proof.
  assert (Hy : word 0x12345678) by (unfold word; lia).
  split; [exact Hy | apply (undo_right_shift_xor_11_closed_form 0x12345678 Hy)].
Defined.

(** ** [temper] as a map on words *)

(** X4. [temper] is linear over exclusive or, on all integers. *)
Theorem temper_xor_linear (a b : Z) :
  temper (Z.lxor a b) = Z.lxor (temper a) (temper b).
Proof.
  unfold temper, Tempering.U, Tempering.S, Tempering.B, Tempering.T,
    Tempering.C, Tempering.L.
  change 4294967295 with (Z.ones 32).
  bitblast_deep.
Qed.

Lemma right_shift_xor_18_undo (x : Z) :
  word x ->
  Z.lxor (Z.lxor x (Z.shiftr x 18)) (Z.shiftr (Z.lxor x (Z.shiftr x 18)) 18) = x.
Proof. intros Hx. rewrite (word_mod x Hx). bitblast_deep. Qed.

Lemma right_shift_xor_11_undo (x : Z) :
  word x ->
  let r := Z.lxor x (Z.shiftr x 11) in
  Z.lxor r (Z.lxor (Z.shiftr r 11) (Z.shiftr r 22)) = x.
Proof. intros Hx r. subst r. rewrite (word_mod x Hx). bitblast_deep. Qed.

(** X5. [temper] loses nothing: two 32-bit words with the same tempered
    value are equal. *)
Theorem temper_injective (x x' : Z) :
  word x -> word x' -> temper x = temper x' -> x = x'.
Proof.
  intros Hx Hx'. unfold temper, Tempering.U, Tempering.S, Tempering.B,
    Tempering.T, Tempering.C, Tempering.L.
  assert (Hstep : forall a, word a ->
            word (Z.lxor a (Z.shiftr a 11)) /\
            word (Z.lxor (Z.lxor a (Z.shiftr a 11))
                    (Z.land (Z.shiftl (Z.lxor a (Z.shiftr a 11)) 7) 0x9D2C5680))).
  { intros a Ha.
    assert (H1 : word (Z.lxor a (Z.shiftr a 11)))
      by (apply word_lxor; [exact Ha | apply word_shiftr; [lia | exact Ha]]).
    split; [exact H1 |].
    apply word_lxor; [exact H1 | apply word_land_r; unfold word; lia]. }
  destruct (Hstep x Hx) as [H1 H2]. destruct (Hstep x' Hx') as [H1' H2'].
  set (x1 := Z.lxor x (Z.shiftr x 11)) in *.
  set (x1' := Z.lxor x' (Z.shiftr x' 11)) in *.
  set (x2 := Z.lxor x1 (Z.land (Z.shiftl x1 7) 0x9D2C5680)) in *.
  set (x2' := Z.lxor x1' (Z.land (Z.shiftl x1' 7) 0x9D2C5680)) in *.
  assert (H3 : word (Z.lxor x2 (Z.land (Z.shiftl x2 15) 0xEFC60000)))
    by (apply word_lxor; [exact H2 | apply word_land_r; unfold word; lia]).
  assert (H3' : word (Z.lxor x2' (Z.land (Z.shiftl x2' 15) 0xEFC60000)))
    by (apply word_lxor; [exact H2' | apply word_land_r; unfold word; lia]).
  set (x3 := Z.lxor x2 (Z.land (Z.shiftl x2 15) 0xEFC60000)) in *.
  set (x3' := Z.lxor x2' (Z.land (Z.shiftl x2' 15) 0xEFC60000)) in *.
  rewrite !word_mask
    by (apply word_lxor; [| apply word_shiftr; [lia |]]; assumption).
  intros H4.
  assert (E3 : x3 = x3').
  { rewrite <- (right_shift_xor_18_undo x3 H3), <- (right_shift_xor_18_undo x3' H3').
    now rewrite H4. }
  assert (E2 : x2 = x2').
  { rewrite <- (undo_left_shift_xor_and_round_trip x2 15 0xEFC60000 H2) by lia.
    rewrite <- (undo_left_shift_xor_and_round_trip x2' 15 0xEFC60000 H2') by lia.
    fold x3 x3'. now rewrite E3. }
  assert (E1 : x1 = x1').
  { rewrite <- (undo_left_shift_xor_and_round_trip x1 7 0x9D2C5680 H1) by lia.
    rewrite <- (undo_left_shift_xor_and_round_trip x1' 7 0x9D2C5680 H1') by lia.
    fold x2 x2'. now rewrite E2. }
  rewrite <- (right_shift_xor_11_undo x Hx), <- (right_shift_xor_11_undo x' Hx').
  cbv zeta. fold x1 x1'. now rewrite E1.
Qed.

Lemma temper_injective_witness :
  word 0x12345678 /\ word (0x12300000 + 0x45678) /\
  temper 0x12345678 = temper (0x12300000 + 0x45678) /\
  0x12345678 = 0x12300000 + 0x45678.
Proof.
  assert (Hx : word 0x12345678) by (unfold word; lia).
  assert (Hx' : word (0x12300000 + 0x45678)) by (unfold word; lia).
  assert (Ht : temper 0x12345678 = temper (0x12300000 + 0x45678)) by reflexivity.
  split; [exact Hx | split; [exact Hx' | split; [exact Ht |]]].
  apply (temper_injective 0x12345678 (0x12300000 + 0x45678) Hx Hx' Ht).
Defined.

(** ** The twist on arrays of any length *)

Lemma twist_list_word (l : list Z) :
  length l = 624%nat -> Forall word (twist_list l).
Proof.
  intros Hlen. apply Forall_lookup. intros i x Hx.
  assert (Hi : (i < 624)%nat).
  { apply lookup_lt_Some in Hx. now rewrite twist_list_length, Hlen in Hx. }
  apply list_lookup_total_correct in Hx. subst x.
  rewrite twist_list_lookup by assumption. apply twist_word_word.
Qed.

(** X6. On an array of 624 integers, whatever they are, [twist] does not
    raise: it leaves an array of 624 words of 32 bits and the cursor at 0. *)
Theorem twist_total (s : t) :
  length (mt s) = 624%nat ->
  exists l, twist s = (Ok tt, mk l 0) /\ length l = 624%nat /\ Forall word l.
Proof.
  intros Hlen. exists (twist_list (mt s)).
  split; [now apply twist_in_range |].
  split; [now rewrite twist_list_length | now apply twist_list_word].
Qed.

Lemma twist_total_witness :
  length (mt (mk (replicate 624 (-1)) 7)) = 624%nat /\
  exists l, twist (mk (replicate 624 (-1)) 7) = (Ok tt, mk l 0) /\
            length l = 624%nat /\ Forall word l.
Proof.
  assert (H : length (mt (mk (replicate 624 (-1)) 7)) = 624%nat) by reflexivity.
  split; [exact H | apply (twist_total (mk (replicate 624 (-1)) 7) H)].
Defined.

Lemma twist_body_list_length (l l' : list Z) (i : Z) :
  twist_body_list l i = Some l' -> length l' = length l.
Proof.
  unfold twist_body_list.
  destruct (list_index _ i) as [n |]; [| discriminate].
  destruct (py_getitem l ((i + 1) `mod` N)) as [b |]; [| discriminate].
  destruct (py_getitem l ((i + M) `mod` N)) as [c |]; [| discriminate].
  intros [= <-]. apply length_insert.
Qed.

(** A loop that runs through has found every one of its indices in range. *)
Lemma twist_loop_list_index (idxs : list Z) (l l' : list Z) (i : Z) :
  twist_loop_list idxs l = Some l' -> In i idxs ->
  exists n, list_index (Z.of_nat (length l)) i = Some n.
Proof.
  revert l. induction idxs as [| j idxs IH]; intros l; simpl; [contradiction |].
  destruct (twist_body_list l j) as [l1 |] eqn:E; [| discriminate].
  intros Hl' [-> | Hin].
  - unfold twist_body_list in E.
    destruct (list_index (Z.of_nat (length l)) i) as [n |]; [eauto | discriminate].
  - rewrite <- (twist_body_list_length _ _ _ E). eauto.
Qed.

(** The loop never touches the cursor nor the length of the array. *)
Lemma for_twist_body_index (idxs : list Z) (s : t) :
  index (snd (for_ idxs twist_body s)) = index s /\
  length (mt (snd (for_ idxs twist_body s))) = length (mt s).
Proof.
  revert s. induction idxs as [| i idxs IH]; intros s; [now destruct s |].
  cbn [for_]. unfold mbind, action_bind. rewrite twist_body_run.
  destruct (twist_body_list (mt s) i) as [l1 |] eqn:E; [| split; reflexivity].
  destruct (IH (mk l1 (index s))) as [Hi Hl]. cbn [mt index] in Hi, Hl.
  destruct (for_ idxs twist_body (mk l1 (index s))) as [[[] | e] s1]; cbn [snd] in *;
    (split; [exact Hi | rewrite Hl; eapply twist_body_list_length; eauto]).
Qed.

(** X7. On an array of fewer than 624 entries [twist] raises [IndexError];
    the cursor is not reset and the array keeps its length. *)
Theorem twist_short_raises (s : t) :
  (length (mt s) < 624)%nat ->
  fst (twist s) = Raise IndexError /\
  index (snd (twist s)) = index s /\
  length (mt (snd (twist s))) = length (mt s).
Proof.
  intros Hlen.
  assert (Hnone : twist_loop_list (py_range 0 N 1) (mt s) = None).
  { destruct (twist_loop_list (py_range 0 N 1) (mt s)) as [l' |] eqn:E; [| reflexivity].
    destruct (twist_loop_list_index _ _ _ 623 E) as [n Hn].
    - change N with (Z.of_nat 624). rewrite py_range_nat.
      apply in_map_iff. exists 623%nat. split; [reflexivity |].
      apply in_seq. split; [lia | apply Nat.ltb_lt; reflexivity].
    - unfold list_index in Hn.
      destruct (Z.ltb_spec 623 (Z.of_nat (length (mt s)))); [lia |].
      rewrite andb_false_r in Hn. simpl in Hn.
      destruct (- Z.of_nat (length (mt s)) <=? 623); discriminate. }
  unfold twist, mbind, action_bind.
  pose proof (for_twist_body_index (py_range 0 N 1) s) as [Hi Hl].
  rewrite twist_loop_run, Hnone in *. cbn [fst snd] in *. auto.
Qed.

Lemma twist_short_raises_witness :
  (length (mt (mk [1; 2; 3]%Z 5%Z)) < 624)%nat /\
  fst (twist (mk [1; 2; 3] 5)) = Raise IndexError /\
  index (snd (twist (mk [1; 2; 3] 5))) = 5 /\
  length (mt (snd (twist (mk [1; 2; 3] 5)))) = 3%nat.
Proof.
  assert (H : (length (mt (mk [1; 2; 3]%Z 5%Z)) < 624)%nat)
    by (apply Nat.ltb_lt; reflexivity).
  split; [exact H | apply (twist_short_raises (mk [1; 2; 3] 5) H)].
Defined.

Lemma twist_prefix_list_head (k : nat) (l : list Z) :
  twist_prefix_list (Datatypes.S k) l = fold_left twist_step (seq 1 k) (twist_step l 0).
Proof. reflexivity. Qed.

Lemma twist_step_low_bits (l : list Z) (w : Z) :
  (397 < length l)%nat ->
  Z.land w UPPER_MASK = Z.land (l !!! 0%nat) UPPER_MASK ->
  twist_step (<[0%nat := w]> l) 0 = twist_step l 0.
Proof.
  intros Hlen Hw. unfold twist_step.
  change ((0 + 1) `mod` 624)%nat with 1%nat.
  change ((0 + 397) `mod` 624)%nat with 397%nat.
  rewrite list_insert_insert_eq.
  rewrite list_lookup_total_insert_eq by lia.
  rewrite !list_lookup_total_insert_ne by discriminate.
  unfold twist_word. now rewrite Hw.
Qed.

(** X8. The twist uses only the top bit of [mt[0]]: replacing [mt[0]] by any
    integer with the same bit 31 changes nothing in what [twist] returns and
    leaves. *)
Theorem twist_ignores_low_bits (l : list Z) (w k : Z) :
  length l = 624%nat ->
  Z.land w UPPER_MASK = Z.land (l !!! 0%nat) UPPER_MASK ->
  twist (mk (<[0%nat := w]> l) k) = twist (mk l k).
Proof.
  intros Hlen Hw.
  rewrite !twist_in_range by (cbn [mt]; now rewrite ?length_insert).
  cbn [mt]. unfold twist_list.
  change 624%nat with (Datatypes.S 623).
  rewrite !twist_prefix_list_head.
  rewrite twist_step_low_bits; [reflexivity | | exact Hw].
  rewrite Hlen. apply Nat.ltb_lt. reflexivity.
Qed.

Lemma twist_ignores_low_bits_witness :
  length array_one = 624%nat /\
  Z.land 0x7FFFFFFF UPPER_MASK = Z.land (array_one !!! 0%nat) UPPER_MASK /\
  twist (mk (<[0%nat := 0x7FFFFFFF]> array_one) 624) = twist (mk array_one 624).
Proof.
  assert (Hlen : length array_one = 624%nat) by reflexivity.
  assert (Hw : Z.land 0x7FFFFFFF UPPER_MASK = Z.land (array_one !!! 0%nat) UPPER_MASK)
    by reflexivity.
  split; [exact Hlen | split; [exact Hw |]].
  apply (twist_ignores_low_bits array_one 0x7FFFFFFF 624 Hlen Hw).
Defined.

(** ** [next_uint32] on a full array *)

(** X9. On an array of 624 entries and a cursor that is not negative,
    [next_uint32] does not raise.  It twists first when the cursor is at 624
    or beyond, then returns the tempered entry under the cursor and moves
    the cursor one further; without a twist the array is left as it was. *)
Theorem next_uint32_full_array (s : t) :
  length (mt s) = 624%nat -> 0 <= index s ->
  let s1 := if N <=? index s then mk (mt (snd (twist s))) 0 else s in
  length (mt s1) = 624%nat /\
  0 <= index s1 < N /\
  next_uint32 s =
    (Ok (temper (mt s1 !!! Z.to_nat (index s1))), mk (mt s1) (index s1 + 1)).
Proof.
  intros Hlen Hidx s1.
  assert (Hfill : (if N <=? index s then twist else mret tt) s = (Ok tt, s1)).
  { subst s1. destruct (N <=? index s).
    - rewrite twist_in_range by exact Hlen. cbn [snd mt]. reflexivity.
    - reflexivity. }
  assert (Hs1 : length (mt s1) = 624%nat /\ 0 <= index s1 < N).
  { subst s1. destruct (Z.leb_spec N (index s)).
    - rewrite twist_in_range by exact Hlen. cbn [snd mt index].
      rewrite twist_list_length. split; [exact Hlen | now split].
    - split; [exact Hlen | lia]. }
  destruct Hs1 as [Hlen1 Hidx1].
  split; [exact Hlen1 | split; [exact Hidx1 |]].
  unfold next_uint32, mbind, action_bind, get_index.
  rewrite Hfill. unfold getitem.
  rewrite py_getitem_in_range by (rewrite Hlen1; exact Hidx1).
  reflexivity.
Qed.

Lemma next_uint32_full_array_witness :
  length (mt (mk array_one 1)) = 624%nat /\ 0 <= index (mk array_one 1) /\
  next_uint32 (mk array_one 1) = (Ok (temper 1), mk array_one 2).
Proof.
  assert (Hlen : length (mt (mk array_one 1)) = 624%nat) by reflexivity.
  assert (Hidx : 0 <= index (mk array_one 1)) by (cbn [index]; lia).
  split; [exact Hlen | split; [exact Hidx |]].
  exact (proj2 (proj2 (next_uint32_full_array (mk array_one 1) Hlen Hidx))).
Defined.

(** X10. A cursor below minus the length of the array is out of range for
    Python's indexing from the end: [next_uint32] raises [IndexError] and
    leaves the instance as it was. *)
Theorem next_uint32_cursor_too_low (s : t) :
  index s < - Z.of_nat (length (mt s)) ->
  next_uint32 s = (Raise IndexError, s).
Proof.
  intros Hidx. unfold next_uint32, mbind, action_bind, get_index.
  assert (Hlt : (N <=? index s) = false) by (apply Z.leb_gt; unfold N; lia).
  rewrite Hlt. unfold mret, action_ret, getitem, py_getitem, list_index.
  destruct (Z.leb_spec 0 (index s)); [lia |].
  destruct (Z.leb_spec (- Z.of_nat (length (mt s))) (index s)); [lia |].
  reflexivity.
Qed.

Lemma next_uint32_cursor_too_low_witness :
  index (mk [1; 2] (-3)) < - Z.of_nat (length (mt (mk [1; 2] (-3)))) /\
  next_uint32 (mk [1; 2] (-3)) = (Raise IndexError, mk [1; 2] (-3)).
Proof.
  assert (H : index (mk [1; 2] (-3)) < - Z.of_nat (length (mt (mk [1; 2] (-3)))))
    by reflexivity.
  split; [exact H | apply (next_uint32_cursor_too_low (mk [1; 2] (-3)) H)].
Defined.

(** ** Successive outputs *)

(** Drawing [a + b] outputs is drawing [a] and then [b]. *)
Lemma draw_add (a b : nat) (s : t) :
  draw (a + b) s =
  match draw a s with
  | (Ok l1, s1) =>
      match draw b s1 with
      | (Ok l2, s2) => (Ok (l1 ++ l2), s2)
      | (Raise e, s2) => (Raise e, s2)
      end
  | (Raise e, s1) => (Raise e, s1)
  end.
Proof.
  revert s. induction a as [| a IH]; intros s.
  - cbn [Nat.add draw]. unfold mret, action_ret.
    destruct (draw b s) as [[l2 | e] s2]; reflexivity.
  - cbn [Nat.add]. rewrite !draw_S. unfold mbind, action_bind.
    destruct (next_uint32 s) as [[v | e] s']; [| reflexivity].
    rewrite IH.
    destruct (draw a s') as [[l1 | e] s1]; [| reflexivity].
    unfold mret, action_ret.
    destruct (draw b s1) as [[l2 | e] s2]; reflexivity.
Qed.

Lemma twisted_list (S : list Z) :
  length S = 624%nat -> twisted S = twist_list S.
Proof.
  intros Hlen. unfold twisted, generator.
  now rewrite twist_in_range by exact Hlen.
Qed.

Lemma iter_twisted_length (k : nat) (S : list Z) :
  length S = 624%nat -> length (Nat.iter k twisted S) = 624%nat.
Proof.
  intros Hlen. induction k as [| k IH]; [exact Hlen |].
  cbn [Nat.iter nat_rect]. rewrite twisted_list by exact IH.
  now rewrite twist_list_length.
Qed.

(** X11. The outputs come in blocks of 624, one twist per block: from a
    generator at the end of its array [S], [624 * k] calls return the
    tempered words of the once, twice, ... [k] times twisted array, in array
    order, and leave the generator at the end of the [k] times twisted
    array. *)
Theorem draw_blocks (S : list Z) (k : nat) :
  length S = 624%nat ->
  draw (k * 624) (generator S) =
  (Ok (concat (map (fun j => map temper (Nat.iter (Datatypes.S j) twisted S)) (seq 0 k))),
   generator (Nat.iter k twisted S)).
Proof.
  intros Hlen. induction k as [| k IH]; [reflexivity |].
  rewrite Nat.mul_succ_l, draw_add, IH.
  pose proof (observe_run (Nat.iter k twisted S) (iter_twisted_length k S Hlen)) as Hobs.
  unfold observe in Hobs. rewrite Hobs.
  rewrite seq_S, map_app, concat_app. cbn [map concat Nat.add].
  rewrite app_nil_r.
  change (Nat.iter (Datatypes.S k) twisted S) with (twisted (Nat.iter k twisted S)).
  rewrite (twisted_list (Nat.iter k twisted S)) by (now apply iter_twisted_length).
  reflexivity.
Qed.

Lemma draw_blocks_witness :
  length array_one = 624%nat /\
  draw (2 * 624) (generator array_one) =
  (Ok (concat (map (fun j => map temper (Nat.iter (Datatypes.S j) twisted array_one))
                   (seq 0 2))),
   generator (Nat.iter 2 twisted array_one)).
Proof.
  assert (Hlen : length array_one = 624%nat) by reflexivity.
  split; [exact Hlen | apply (draw_blocks array_one 2 Hlen)].
Defined.



(** ** [collect_outputs] *)

Lemma collect_loop_unfold (target : Z) (rounds : list round) (acc : list Z) :
  collect_loop target rounds acc =
  if Z.of_nat (length acc) <? target then
    match rounds with
    | [] => None
    | r :: rounds' =>
        match round_values r with
        | [] => collect_loop target rounds' acc
        | v :: vs =>
            collect_loop target rounds'
              (if Z.of_nat (length (acc ++ [v])) <? target
               then (acc ++ [v]) ++ vs else acc ++ [v])
        end
    end
  else Some (acc, rounds).
Proof.
  destruct rounds as [| [[l |] [e |]] rounds']; reflexivity.
Qed.

Lemma round_values_shape (r : round) :
  round_values r = [] \/ exists v1 v2, round_values r = [v1; v2] /\ word v1 /\ word v2.
Proof.
  destruct r as [[l |] [e |]]; cbn; auto.
  right. eexists _, _. split; [reflexivity |]. split; apply mask_word.
Qed.

Lemma collect_loop_spec (target : Z) (rounds : list round) (acc : list Z) :
  Z.of_nat (length acc) <= target ->
  match collect_loop target rounds acc with
  | Some (outs, rest) =>
      outs = acc ++ take (Z.to_nat target - length acc) (stream rounds) /\
      Z.of_nat (length outs) = target /\
      exists used, rounds = used ++ rest /\
        forall used' r, used = used' ++ [r] ->
          Z.of_nat (length acc + length (stream used')) < target
  | None => Z.of_nat (length acc + length (stream rounds)) < target
  end.
Proof.
  revert acc. induction rounds as [| r rounds IH]; intros acc Hacc;
    rewrite collect_loop_unfold.
  - destruct (Z.ltb_spec (Z.of_nat (length acc)) target) as [Hlt | Hge].
    + cbn. lia.
    + assert (Hn : (Z.to_nat target - length acc = 0)%nat) by lia.
      rewrite Hn, take_0, app_nil_r.
      split; [reflexivity | split; [lia |]].
      exists []. split; [reflexivity |].
      intros used' r Hu. destruct used'; discriminate.
  - destruct (Z.ltb_spec (Z.of_nat (length acc)) target) as [Hlt | Hge].
    + unfold stream. cbn [map concat]. fold (stream rounds).
      destruct (round_values_shape r) as [Hr | (v1 & v2 & Hr & _)]; rewrite Hr.
      * specialize (IH acc Hacc).
        destruct (collect_loop target rounds acc) as [[outs rest] |]; [| exact IH].
        destruct IH as (Houts & Hlen & used & Hused & Hmin).
        split; [exact Houts | split; [exact Hlen |]].
        exists (r :: used). split; [now rewrite Hused |].
        intros used' r0 Hu. destruct used' as [| r1 used'].
        -- cbn. lia.
        -- injection Hu as <- Hu. specialize (Hmin _ _ Hu).
           unfold stream in *. cbn [map concat]. rewrite Hr. exact Hmin.
      * rewrite length_app. cbn [length].
        destruct (Z.ltb_spec (Z.of_nat (length acc + 1)) target) as [Hlt2 | Hge2].
        -- specialize (IH ((acc ++ [v1]) ++ [v2])).
           rewrite !length_app in IH. cbn [length] in IH.
           specialize (IH ltac:(lia)).
           destruct (collect_loop target rounds ((acc ++ [v1]) ++ [v2]))
             as [[outs rest] |]; [| cbn [app length]; lia].
           destruct IH as (Houts & Hlen & used & Hused & Hmin).
           split; [| split; [exact Hlen |]].
           ++ rewrite Houts, <- !app_assoc. cbn [app]. f_equal.
              replace (Z.to_nat target - length acc)%nat
                with (Datatypes.S (Datatypes.S (Z.to_nat target - (length acc + 1 + 1)))) by lia.
              reflexivity.
           ++ exists (r :: used). split; [now rewrite Hused |].
              intros used' r0 Hu. destruct used' as [| r1 used'].
              ** cbn. lia.
              ** injection Hu as <- Hu. specialize (Hmin _ _ Hu).
                 unfold stream in *. cbn [map concat]. rewrite Hr.
                 rewrite length_app. cbn [length]. lia.
        -- specialize (IH (acc ++ [v1])).
           rewrite !length_app in IH. cbn [length] in IH.
           specialize (IH ltac:(lia)).
           rewrite collect_loop_unfold in IH |- *.
           rewrite length_app in IH |- *. cbn [length] in IH |- *.
           destruct (Z.ltb_spec (Z.of_nat (length acc + 1)) target); [lia |].
           destruct IH as (_ & Hlen & _).
           split; [| split; [exact Hlen |]].
           ++ f_equal.
              replace (Z.to_nat target - length acc)%nat with 1%nat by lia.
              reflexivity.
           ++ exists [r]. split; [reflexivity |].
              intros used' r0 Hu. destruct used' as [| r1 used'].
              ** cbn. lia.
              ** injection Hu as _ Hu. destruct used'; discriminate.
    + assert (Hn : (Z.to_nat target - length acc = 0)%nat) by lia.
      rewrite Hn, take_0, app_nil_r.
      split; [reflexivity | split; [lia |]].
      exists []. split; [reflexivity |].
      intros used' r0 Hu. destruct used'; discriminate.
Qed.

Lemma stream_word (rounds : list round) : Forall word (stream rounds).
Proof.
  unfold stream. induction rounds as [| r rounds IH]; [constructor |].
  cbn [map concat]. apply Forall_app. split; [| exact IH].
  destruct (round_values_shape r) as [-> | (v1 & v2 & -> & H1 & H2)];
    [constructor | constructor; [exact H1 | constructor; [exact H2 | constructor]]].
Qed.

Lemma collect_loop_negative (target : Z) (rounds : list round) :
  target <= 0 -> collect_loop target rounds [] = Some ([], rounds).
Proof.
  intros Ht. rewrite collect_loop_unfold. cbn [length].
  destruct (Z.ltb_spec (Z.of_nat 0) target); [lia | reflexivity].
Qed.

Lemma collect_outputs_spec (target_count : Z) (rounds : list round) :
  match collect_outputs target_count rounds with
  | Some (outputs, _) =>
      outputs = take (Z.to_nat target_count) (stream rounds) /\
      length outputs = Z.to_nat target_count /\
      Forall word outputs
  | None => Z.of_nat (length (stream rounds)) < target_count
  end.
Proof.
  unfold collect_outputs.
  destruct (Z.le_gt_cases target_count 0) as [Hneg | Hpos].
  - rewrite collect_loop_negative by exact Hneg.
    assert (Hn : Z.to_nat target_count = 0%nat) by lia.
    assert (Hs : py_slice_to [] target_count = []).
    { unfold py_slice_to. destruct (0 <=? target_count); apply take_nil. }
    rewrite Hs, Hn, take_0. repeat split. constructor.
  - pose proof (collect_loop_spec target_count rounds [] ltac:(cbn [length]; lia)) as H.
    destruct (collect_loop target_count rounds []) as [[outs rest] |]; [| exact H].
    destruct H as (Houts & Hlen & _).
    cbn [app length] in Houts. rewrite Nat.sub_0_r in Houts.
    assert (Hs : py_slice_to outs target_count = outs).
    { unfold py_slice_to. destruct (Z.leb_spec 0 target_count); [| lia].
      apply take_ge. lia. }
    rewrite Hs. split; [exact Houts | split; [lia |]].
    rewrite Houts. apply Forall_take, stream_word.
Qed.

(** X13. [collect_outputs] returns the first [target_count] values of the
    rounds' stream, each reduced to 32 bits: rounds in which one of the two
    numbers was not parsed are skipped, lucky comes before exit, and the
    exit value of the last round is left out when the count is reached
    without it.  It goes on asking exactly when the rounds carry fewer than
    [target_count] values. *)
Theorem collect_outputs_value (target_count : Z) (rounds : list round) :
  match collect_outputs target_count rounds with
  | Some (outputs, _) =>
      outputs = take (Z.to_nat target_count) (stream rounds) /\
      length outputs = Z.to_nat target_count /\
      Forall word outputs
  | None => Z.of_nat (length (stream rounds)) < target_count
  end.
Proof. exact (collect_outputs_spec target_count rounds). Qed.

(** X14. [collect_outputs] stops asking as soon as it has enough: the rounds
    it used are a prefix of the given ones, and without the last of them
    the count was not yet reached.  With a count of zero or less it asks for
    no round at all. *)
Theorem collect_outputs_stops_early
    (target_count : Z) (rounds rest : list round) (outputs : list Z) :
  collect_outputs target_count rounds = Some (outputs, rest) ->
  exists used,
    rounds = used ++ rest /\
    forall used' r, used = used' ++ [r] ->
      Z.of_nat (length (stream used')) < target_count.
Proof.
  unfold collect_outputs.
  destruct (Z.le_gt_cases target_count 0) as [Hneg | Hpos].
  - rewrite collect_loop_negative by exact Hneg. intros [= _ <-].
    exists []. split; [reflexivity |].
    intros used' r Hu. destruct used'; discriminate.
  - pose proof (collect_loop_spec target_count rounds [] ltac:(cbn [length]; lia)) as H.
    destruct (collect_loop target_count rounds []) as [[outs rest'] |]; [| discriminate].
    intros [= _ <-]. destruct H as (_ & _ & used & Hused & Hmin).
    exists used. split; [exact Hused |].
    intros used' r Hu. exact (Hmin used' r Hu).
Qed.

Lemma collect_outputs_stops_early_witness :
  collect_outputs 3 [(Some 1, Some 2); (None, Some 9); (Some 3, Some 4); (Some 5, Some 6)]
    = Some ([1; 2; 3], [(Some 5, Some 6)]) /\
  exists used,
    [(Some 1, Some 2); (None, Some 9); (Some 3, Some 4); (Some 5, Some 6)]
      = used ++ [(Some 5, Some 6)] /\
    forall used' r, used = used' ++ [r] -> Z.of_nat (length (stream used')) < 3.
Proof.
  assert (H : collect_outputs 3
                [(Some 1, Some 2); (None, Some 9); (Some 3, Some 4); (Some 5, Some 6)]
              = Some ([1; 2; 3], [(Some 5, Some 6)])) by reflexivity.
  split; [exact H |].
  apply (collect_outputs_stops_early 3 _ _ _ H).
Defined.

(** ** [main]: from the collected outputs to the predictor *)

(** X15. What [collect_outputs(624)] returns is always accepted by
    [seed_from_state]: the reconstruction of [main] does not raise, and the
    predictor holds the untempered outputs in their order, with the cursor
    at 624. *)
Theorem main_reconstruct (rounds rest : list round) (outputs : list Z) :
  collect_outputs 624 rounds = Some (outputs, rest) ->
  reconstruct outputs = (Ok tt, mk (map untemper outputs) N).
Proof.
  intros Hc.
  pose proof (collect_outputs_spec 624 rounds) as H. rewrite Hc in H.
  destruct H as (_ & Hlen & _).
  unfold reconstruct. rewrite seed_from_state_run, length_map, Hlen.
  change (Z.to_nat 624 =? 624)%nat with true. cbv iota.
  f_equal. f_equal. rewrite map_map. apply map_ext.
  intros y. apply word_mask. unfold untemper. apply mask_word.
Qed.

Lemma main_reconstruct_witness :
  collect_outputs 624 rounds_312 =
    Some (concat (replicate 312 [1; 2]), []) /\
  reconstruct (concat (replicate 312 [1; 2])) =
    (Ok tt, mk (map untemper (concat (replicate 312 [1; 2]))) N).
Proof.
  assert (H : collect_outputs 624 rounds_312 = Some (concat (replicate 312 [1; 2]), []))
    by (vm_compute; reflexivity).
  split; [exact H | apply (main_reconstruct rounds_312 [] _ H)].
Defined.
